(** * StorageHub texture sync: a model of [scripts/sync_storagehub_textures.py]

    The script copies a fixed table of textures from a source folder into
    the [items/] and [tiles/] folders of an asset tree and re-packs 32x32
    four-frame tile sheets into the 36x36 padded layout.

    The development has three layers:
    - [Raster]: RGBA rasters and the Pillow operations the script calls
      ([Image.new], [crop], [paste], [getpixel]) as functions on pixel
      buffers;
    - [Py]: the interpreter state the script runs in (image objects on a
      heap, the file system, standard output) and an exception monad
      over it;
    - [Sync]: the script itself, definition by definition. *)

From stdpp Require Import base numbers list list_numbers strings gmap.

Local Open Scope Z_scope.

(** ** Rasters *)

Module Raster.

(** One RGBA pixel: four 8-bit channels. *)
Definition Pixel : Type := Z * Z * Z * Z.



(** An image in mode RGBA: [size] is Pillow's [(width, height)] and
    [pixels] the buffer, row after row from the top-left corner. *)
Record Image : Type := mkImage {
  size : Z * Z;
  pixels : list Pixel
}.

#[global] Instance Image_eq_dec : EqDecision Image.
Proof. solve_decision. Defined.


Definition width (im : Image) : Z := fst (size im).
Definition height (im : Image) : Z := snd (size im).

(** A buffer that matches its size. Every image Pillow hands out
    satisfies this. *)
Definition wf_image (im : Image) : bool :=
  (0 <=? width im) && (0 <=? height im)
  && (Z.of_nat (length (pixels im)) =? width im * height im).

Definition in_bounds (w h x y : Z) : bool :=
  (0 <=? x) && (x <? w) && (0 <=? y) && (y <? h).

(** [im.getpixel((x, y))]; [None] where Pillow raises [IndexError]. *)
Definition getpixel (im : Image) (xy : Z * Z) : option Pixel :=
  let '(x, y) := xy in
  if in_bounds (width im) (height im) x y
  then pixels im !! Z.to_nat (y * width im + x)
  else None.

(** The image of size [w]x[h] whose pixel at [(x, y)] is [f x y]. *)
Definition raster (w h : Z) (f : Z → Z → Pixel) : Image :=
  mkImage (w, h) ((λ i, f (i `mod` w) (i `div` w)) <$> seqZ 0 (w * h)).

(** [Image.new("RGBA", size, color)] *)
Definition new (sz : Z * Z) (color : Pixel) : Image :=
  raster (fst sz) (snd sz) (λ _ _, color).

(** [im.crop((left, upper, right, lower))]: a fresh image of size
    [(right - left, lower - upper)]; the part of the box that lies
    outside [im] is transparent black. *)
Definition crop (im : Image) (box : Z * Z * Z * Z) : Image :=
  let '(x0, y0, x1, y1) := box in
  raster (x1 - x0) (y1 - y0)
         (λ x y, default (0, 0, 0, 0) (getpixel im (x0 + x, y0 + y))).

(** [dst.paste(im, (ox, oy))] without a mask: every pixel of [dst]
    under the box of [im] is overwritten by the pixel of [im], all
    four channels, the others are kept. *)
Definition paste (dst im : Image) (at_ : Z * Z) : Image :=
  let '(ox, oy) := at_ in
  let w := width dst in
  mkImage (size dst)
    (imap (λ i p,
             let x := Z.of_nat i `mod` w in
             let y := Z.of_nat i `div` w in
             default p (getpixel im (x - ox, y - oy)))
          (pixels dst)).

End Raster.

Import Raster.

(** ** The interpreter state *)

Module Py.

(** A [pathlib.Path], as its parts. *)
Definition Path : Type := list string.

(** [p / name] for a plain file name. *)
Definition joinpath (p : Path) (name : string) : Path := p ++ [name].

(** [p] and the folders above it: what [mkdir(parents=True)] leaves
    behind. *)
Definition ancestors (p : Path) : list Path :=
  (λ n, take (S n) p) <$> seq 0 (length p).

(** Image objects live on a heap and are handed around by reference. *)
Definition ref : Type := nat.

Inductive exn : Type :=
| ValueError (got : Z * Z)
    (* "Expected tile source size 32x32 or 36x36, got {got}" *)
| FileNotFoundError (p : Path)
| IsADirectoryError (p : Path).

#[global] Instance exn_eq_dec : EqDecision exn.
Proof. solve_decision. Defined.

(** The lines the script prints, with the values of their fields. *)
Inductive line : Type :=
| SKIP (src_path : Path)
| ITEM (source_name : string) (dst_item : Path)
| TILE (source_name : string) (dst_tile : Path) (size : Z * Z)
| DONE (copied skipped : Z).

#[global] Instance line_eq_dec : EqDecision line.
Proof. solve_decision. Defined.

(** The file system holds folders and image files; a file is the RGBA
    raster that loading it yields. Writes always succeed: failures of
    the operating system (permissions, a full disk) are outside this
    model. *)
Record State : Type := mkState {
  heap : list Image;
  dirs : gset Path;
  files : gmap Path Image;
  stdout : list line
}.

(** How a run ends: a value, an exception on its way up, or [Wrong]
    for a reference to no object, which no Python program holds. *)
Inductive Outcome (A : Type) : Type :=
| Ok (a : A) (σ : State)
| Raise (e : exn) (σ : State)
| Wrong.
Arguments Ok {A} a σ.
Arguments Raise {A} e σ.
Arguments Wrong {A}.

Definition M (A : Type) : Type := State → Outcome A.

#[global] Instance M_ret : MRet M := λ A a σ, Ok a σ.

#[global] Instance M_bind : MBind M := λ A B k m σ,
  match m σ with
  | Ok a σ' => k a σ'
  | Raise e σ' => Raise e σ'
  | Wrong => Wrong
  end.

Definition raise {A} (e : exn) : M A := λ σ, Raise e σ.

Definition set_heap (h : list Image) (σ : State) : State :=
  mkState h (dirs σ) (files σ) (stdout σ).
Definition set_dirs (d : gset Path) (σ : State) : State :=
  mkState (heap σ) d (files σ) (stdout σ).
Definition set_files (f : gmap Path Image) (σ : State) : State :=
  mkState (heap σ) (dirs σ) f (stdout σ).
Definition set_stdout (o : list line) (σ : State) : State :=
  mkState (heap σ) (dirs σ) (files σ) o.

Definition modify (f : State → State) : M unit := λ σ, Ok () (f σ).

(** *** Objects *)

Definition alloc (im : Image) : M ref := λ σ,
  Ok (length (heap σ)) (set_heap (heap σ ++ [im]) σ).

Definition deref (r : ref) : M Image := λ σ,
  match heap σ !! r with
  | Some im => Ok im σ
  | None => Wrong
  end.

Definition assign (r : ref) (im : Image) : M unit := λ σ,
  match heap σ !! r with
  | Some _ => Ok () (set_heap (<[r := im]> (heap σ)) σ)
  | None => Wrong
  end.

(** *** Pillow, on objects *)

(** [image.size] *)
Definition Image_size (image : ref) : M (Z * Z) :=
  im ← deref image; mret (size im).

(** [image.convert("RGBA")]: a copy, every image here being RGBA. *)
Definition Image_convert_RGBA (image : ref) : M ref :=
  im ← deref image; alloc im.

(** [Image.new("RGBA", size, color)] *)
Definition Image_new (sz : Z * Z) (color : Pixel) : M ref :=
  alloc (Raster.new sz color).

(** [image.crop(box)] returns a new object. *)
Definition Image_crop (image : ref) (box : Z * Z * Z * Z) : M ref :=
  im ← deref image; alloc (Raster.crop im box).

(** [out.paste(im, at)] changes [out] in place. *)
Definition Image_paste (out im : ref) (at_ : Z * Z) : M unit :=
  dst ← deref out; piece ← deref im; assign out (Raster.paste dst piece at_).

(** *** Files and output *)

(** [p.exists()]: [p] is a folder or a file. *)
Definition path_exists (σ : State) (p : Path) : bool :=
  bool_decide (p ∈ dirs σ) || bool_decide (is_Some (files σ !! p)).

Definition Path_exists (p : Path) : M bool := λ σ, Ok (path_exists σ p) σ.

(** [p.mkdir(parents=True, exist_ok=True)] *)
Definition Path_mkdir (p : Path) : M unit :=
  modify (λ σ, set_dirs (list_to_set (ancestors p) ∪ dirs σ) σ).

(** [Image.open(p)] *)
Definition Image_open (p : Path) : M ref := λ σ,
  match files σ !! p with
  | Some im => alloc im σ
  | None =>
      if bool_decide (p ∈ dirs σ) then Raise (IsADirectoryError p) σ
      else Raise (FileNotFoundError p) σ
  end.

(** [image.save(p)] *)
Definition Image_save (image : ref) (p : Path) : M unit :=
  im ← deref image; modify (λ σ, set_files (<[p := im]> (files σ)) σ).

Definition print (l : line) : M unit :=
  modify (λ σ, set_stdout (stdout σ ++ [l]) σ).

(** [for x in xs: acc = body(x, acc)] *)
Fixpoint for_each {A B : Type} (xs : list A) (body : A → B → M B) (acc : B)
  : M B :=
  match xs with
  | [] => mret acc
  | x :: xs' => acc' ← body x acc; for_each xs' body acc'
  end.

(** The truth value Python gives an [Optional[str]]: [None] and the
    empty string are false. *)
Definition truthy (o : option string) : option string :=
  match o with
  | Some EmptyString => None
  | _ => o
  end.

End Py.

Import Py.

(** ** The script *)

Module Sync.

Record TextureMapping : Type := mkTextureMapping {
  source_name : string;
  item_target_name : option string;
  tile_target_name : option string;
  pad_tile_2x2 : bool
}.

Definition MAPPINGS : list TextureMapping := [
  mkTextureMapping "storage-core.png"
    (Some "storage-heart.png") (Some "storage-heart.png") true;
  mkTextureMapping "storage-drive.png"
    (Some "storage-unit.png") (Some "storage-unit.png") true;
  mkTextureMapping "storage-disk-tier-1.png"
    (Some "storage-disk.png") None false;
  mkTextureMapping "disk-upgrader.png"
    (Some "disk-upgrader.png") (Some "disk-upgrader.png") true
]%string.

(** Convert 32x32 (2x2 frames) into 36x36 with 2px frame padding. *)
Definition pad_2x2_tile_sheet (image : ref) : M ref :=
  sz ← Image_size image;
  if bool_decide (sz = (36, 36)) then mret image
  else if bool_decide (sz ≠ (32, 32)) then raise (ValueError sz)
  else
    src ← Image_convert_RGBA image;
    out ← Image_new (36, 36) (0, 0, 0, 0);
    (* Top-left, top-right, bottom-left, bottom-right 16x16 frames. *)
    q ← Image_crop src (0, 0, 16, 16); Image_paste out q (0, 0);;
    q ← Image_crop src (16, 0, 32, 16); Image_paste out q (18, 0);;
    q ← Image_crop src (0, 16, 16, 32); Image_paste out q (0, 18);;
    q ← Image_crop src (16, 16, 32, 32); Image_paste out q (18, 18);;
    mret out.

(** The raster [pad_2x2_tile_sheet] builds in [out] from a 32x32
    raster: its five Pillow calls, on rasters. *)
Definition repacked (im : Image) : Image :=
  let out := Raster.new (36, 36) (0, 0, 0, 0) in
  let out := paste out (crop im (0, 0, 16, 16)) (0, 0) in
  let out := paste out (crop im (16, 0, 32, 16)) (18, 0) in
  let out := paste out (crop im (0, 16, 16, 32)) (0, 18) in
  paste out (crop im (16, 16, 32, 32)) (18, 18).

(** The parsed command line. *)
Record Args : Type := mkArgs {
  source_dir : Path;
  assets_root : Path
}.

(** The defaults of [--source-dir] and [--assets-root]. *)
Definition default_source_dir : Path :=
  ["C:\"; "Users"; "Aiden"; "OneDrive"; "Documents"; "Terraia Mod Work";
   "Storage"]%string.

Definition default_assets_root : Path :=
  ["src"; "StorageHub"; "assets"]%string.

(** [parser.parse_args()] on the two optional flags. *)
Definition parse_args (source_dir assets_root : option Path) : Args :=
  mkArgs (default default_source_dir source_dir)
         (default default_assets_root assets_root).

(** The body of the loop of [main] over one mapping; [counts] is
    [(copied, skipped)]. *)
Definition sync_mapping (source_dir items_dir tiles_dir : Path)
    (mapping : TextureMapping) (counts : Z * Z) : M (Z * Z) :=
  let '(copied, skipped) := counts in
  let src_path := joinpath source_dir (source_name mapping) in
  found ← Path_exists src_path;
  if negb found then
    print (SKIP src_path);;
    mret (copied, skipped + 1)
  else
    opened ← Image_open src_path;
    src_image ← Image_convert_RGBA opened;
    copied ←
      match truthy (item_target_name mapping) with
      | Some name =>
          let dst_item := joinpath items_dir name in
          Image_save src_image dst_item;;
          print (ITEM (source_name mapping) dst_item);;
          mret (copied + 1)
      | None => mret copied
      end;
    copied ←
      match truthy (tile_target_name mapping) with
      | Some name =>
          let dst_tile := joinpath tiles_dir name in
          tile_image ←
            (if pad_tile_2x2 mapping then pad_2x2_tile_sheet src_image
             else mret src_image);
          Image_save tile_image dst_tile;;
          sz ← Image_size tile_image;
          print (TILE (source_name mapping) dst_tile sz);;
          mret (copied + 1)
      | None => mret copied
      end;
    mret (copied, skipped).

Definition main (args : Args) : M Z :=
  let source_dir := source_dir args in
  let assets_root := assets_root args in
  let items_dir := joinpath assets_root "items" in
  let tiles_dir := joinpath assets_root "tiles" in
  found ← Path_exists source_dir;
  if negb found then raise (FileNotFoundError source_dir)
  else
    Path_mkdir items_dir;;
    Path_mkdir tiles_dir;;
    counts ← for_each MAPPINGS (sync_mapping source_dir items_dir tiles_dir)
                      (0, 0);
    print (DONE (fst counts) (snd counts));;
    mret 0.


(** The number of files a mapping writes when its source is there. *)
Definition outputs (mapping : TextureMapping) : Z :=
  match truthy (item_target_name mapping) with Some _ => 1 | None => 0 end
  + match truthy (tile_target_name mapping) with Some _ => 1 | None => 0 end.

(** The state in which the loop of [main] starts: the two folders
    are there. *)
Definition prepared (args : Args) (σ : State) : State :=
  set_dirs
    (list_to_set (ancestors (joinpath (assets_root args) "tiles"))
     ∪ (list_to_set (ancestors (joinpath (assets_root args) "items"))
        ∪ dirs σ))
    σ.


(** The last line a completed run has printed. *)
Definition report (o : Outcome Z) : option line :=
  match o with
  | Ok _ σ => last (stdout σ)
  | _ => None
  end.

(** What a caller can see of the image a call returned: its raster,
    or the exception. *)
Definition returned (o : Outcome ref) : option (exn + Image) :=
  match o with
  | Ok r σ => inr <$> heap σ !! r
  | Raise e _ => Some (inl e)
  | Wrong => None
  end.

End Sync.

Import Sync.

(** ** Sample inputs *)

Module Samples.

(** An opaque 32x32 sheet in which every pixel is different. *)
Definition sheet : Image :=
  raster 32 32 (λ x y, (8 * x, 8 * y, x + y, 255)).

(** An opaque 20x12 icon. *)
Definition icon : Image :=
  raster 20 12 (λ x y, (10 * x, 20 * y, 7, 255)).

Definition sheet64 : Image := raster 64 64 (λ x y, (x, y, 0, 255)).

Definition padded : Image := raster 36 36 (λ x y, (x, y, x + y, 200)).

(** A state with one image object. *)
Definition one_object (im : Image) : State := mkState [im] ∅ ∅ [].

Definition args : Args := parse_args (Some ["Storage"%string]) None.

(** A source folder [Storage] that holds the files [content]. *)
Definition storage (content : list (string * Image)) : State :=
  mkState [] {[ ["Storage"%string] ]}
    (list_to_map (prod_map (joinpath ["Storage"%string]) id <$> content)) [].

(** The folder of the end-to-end scenario: the core sheet and the
    first disk, nothing else. *)
Definition scenario : State :=
  storage [("storage-core.png", sheet); ("storage-disk-tier-1.png", icon)]%string.


Definition bad_core : State := storage [("storage-core.png"%string, sheet64)].

End Samples.

(** ** What a run leaves behind *)

Module Effects.

(** The state in which a run ends, by return or by exception. *)
Definition final {A} (o : Outcome A) : option State :=
  match o with
  | Ok _ σ | Raise _ σ => Some σ
  | Wrong => None
  end.

(** The paths a mapping is written to. *)
Definition targets (items_dir tiles_dir : Path) (mapping : TextureMapping)
  : list Path :=
  match truthy (item_target_name mapping) with
  | Some name => [joinpath items_dir name]
  | None => []
  end
  ++ match truthy (tile_target_name mapping) with
     | Some name => [joinpath tiles_dir name]
     | None => []
     end.

(** The paths the table sends [main] to. *)
Definition output_paths (args : Args) : list Path :=
  concat (targets (joinpath (assets_root args) "items")
                  (joinpath (assets_root args) "tiles") <$> MAPPINGS).

(** From [σ] to [σ']: image objects, folders and printed lines are only
    added, no file is removed, and the files that differ are in [W]. *)
Definition extends (W : list Path) (σ σ' : State) : Prop :=
  heap σ `prefix_of` heap σ'
  ∧ dirs σ ⊆ dirs σ'
  ∧ stdout σ `prefix_of` stdout σ'
  ∧ (∀ p, is_Some (files σ !! p) → is_Some (files σ' !! p))
  ∧ (∀ p, p ∉ W → files σ' !! p = files σ !! p).

(** What a completed run has printed. *)
Definition printed {A} (o : Outcome A) : option (list line) :=
  match o with
  | Ok _ σ => Some (stdout σ)
  | _ => None
  end.

Definition is_output (l : line) : bool :=
  match l with
  | ITEM _ _ | TILE _ _ _ => true
  | _ => false
  end.

Definition is_skip (l : line) : bool :=
  match l with
  | SKIP _ => true
  | _ => false
  end.

Definition is_done (l : line) : bool :=
  match l with
  | DONE _ _ => true
  | _ => false
  end.

(** The number of lines of [ls] that [f] picks. *)
Definition count (f : line → bool) (ls : list line) : Z :=
  Z.of_nat (length (List.filter f ls)).

End Effects.

Import Effects.

(** ** More sample inputs *)

Module MoreSamples.


(** A mapping without targets. *)
Definition no_target : TextureMapping :=
  mkTextureMapping "storage-core.png" None (Some "") true.


(** A source folder whose core is already padded. *)
Definition padded_core : State :=
  Samples.storage [("storage-core.png"%string, Samples.padded)].


End MoreSamples.

(** ** Facts about rasters *)

Section raster_facts.

Lemma in_bounds_true w h x y :
  in_bounds w h x y = true ↔ 0 ≤ x < w ∧ 0 ≤ y < h.
Proof. unfold in_bounds. rewrite !andb_true_iff. lia. Qed.

Lemma in_bounds_false w h x y :
  in_bounds w h x y = false ↔ ¬ (0 ≤ x < w ∧ 0 ≤ y < h).
Proof. rewrite <- in_bounds_true. destruct (in_bounds w h x y); naive_solver. Qed.

Lemma wf_image_spec im :
  wf_image im = true ↔
  0 ≤ width im ∧ 0 ≤ height im
  ∧ Z.of_nat (length (pixels im)) = width im * height im.
Proof. unfold wf_image. rewrite !andb_true_iff. lia. Qed.

(** Row-major addressing. *)
Lemma offset_mod w x y : 0 ≤ x < w → (y * w + x) `mod` w = x.
Proof.
  intros Hx. rewrite Z.add_comm, Z.mod_add by lia. apply Z.mod_small. lia.
Qed.

Lemma offset_div w x y : 0 ≤ x < w → (y * w + x) `div` w = y.
Proof.
  intros Hx. rewrite Z.add_comm, Z.div_add by lia.
  rewrite Z.div_small by lia. lia.
Qed.

Lemma offset_lt w h x y : 0 ≤ x < w → 0 ≤ y < h → 0 ≤ y * w + x < w * h.
Proof. intros Hx Hy. nia. Qed.

Lemma getpixel_in_bounds im x y p :
  getpixel im (x, y) = Some p → 0 ≤ x < width im ∧ 0 ≤ y < height im.
Proof.
  unfold getpixel. destruct (in_bounds _ _ x y) eqn:Hb; [|done].
  intros _. by apply in_bounds_true.
Qed.

Lemma getpixel_is_Some im x y :
  wf_image im = true → 0 ≤ x < width im → 0 ≤ y < height im →
  is_Some (getpixel im (x, y)).
Proof.
  intros (Hw & Hh & Hlen)%wf_image_spec Hx Hy. unfold getpixel.
  assert (in_bounds (width im) (height im) x y = true) as ->
    by (apply in_bounds_true; lia).
  apply lookup_lt_is_Some.
  pose proof (offset_lt (width im) (height im) x y Hx Hy). lia.
Qed.

Lemma size_raster w h f : size (raster w h f) = (w, h).
Proof. done. Qed.

Lemma wf_raster w h f : 0 ≤ w → 0 ≤ h → wf_image (raster w h f) = true.
Proof.
  intros Hw Hh. apply wf_image_spec. cbn.
  rewrite length_fmap, length_seqZ. split_and!; [done..|]. nia.
Qed.

Lemma getpixel_raster w h f x y :
  getpixel (raster w h f) (x, y)
  = if in_bounds w h x y then Some (f x y) else None.
Proof.
  unfold getpixel. cbn.
  destruct (in_bounds w h x y) eqn:Hb; [|done].
  apply in_bounds_true in Hb as [Hx Hy].
  pose proof (offset_lt w h x y Hx Hy) as Hlt.
  rewrite list_lookup_fmap, lookup_seqZ_lt by lia. cbn.
  rewrite Z2Nat.id, Z.add_0_l by lia.
  by rewrite offset_mod, offset_div.
Qed.

Lemma size_new sz c : size (new sz c) = sz.
Proof. by destruct sz. Qed.

Lemma getpixel_new w h c x y :
  getpixel (new (w, h) c) (x, y) = if in_bounds w h x y then Some c else None.
Proof. apply getpixel_raster. Qed.

Lemma size_crop im l u r b : size (crop im (l, u, r, b)) = (r - l, b - u).
Proof. done. Qed.

Lemma getpixel_crop im l u r b x y :
  getpixel (crop im (l, u, r, b)) (x, y)
  = if in_bounds (r - l) (b - u) x y
    then Some (default (0, 0, 0, 0) (getpixel im (l + x, u + y)))
    else None.
Proof. apply getpixel_raster. Qed.

Lemma size_paste dst im at_ : size (paste dst im at_) = size dst.
Proof. by destruct at_. Qed.

Lemma wf_paste dst im at_ :
  wf_image dst = true → wf_image (paste dst im at_) = true.
Proof.
  rewrite !wf_image_spec. destruct at_ as [ox oy]. unfold width, height. cbn.
  by rewrite length_imap.
Qed.

(** Reading a pasted image: the pasted pixel where [im] covers
    [(x, y)], the old pixel elsewhere. *)
Lemma getpixel_paste dst im ox oy x y :
  getpixel (paste dst im (ox, oy)) (x, y)
  = match getpixel dst (x, y) with
    | Some p => Some (default p (getpixel im (x - ox, y - oy)))
    | None => None
    end.
Proof.
  unfold getpixel at 1 2. unfold width, height. cbn.
  fold (width dst) (height dst).
  destruct (in_bounds (width dst) (height dst) x y) eqn:Hb; [|done].
  apply in_bounds_true in Hb as [Hx Hy].
  rewrite list_lookup_imap.
  destruct (pixels dst !! _) as [p|]; [|done]. cbn.
  assert (0 ≤ y * width dst + x) by nia.
  by rewrite Z2Nat.id, offset_mod, offset_div by lia.
Qed.

End raster_facts.

(** ** Running the monad *)

Section monad_facts.
Context {A B : Type}.

Lemma run_bind (m : M A) (k : A → M B) σ :
  (m ≫= k) σ = match m σ with
               | Ok a σ' => k a σ'
               | Raise e σ' => Raise e σ'
               | Wrong => Wrong
               end.
Proof. done. Qed.

Lemma run_ret (a : A) σ : (mret a : M A) σ = Ok a σ.
Proof. done. Qed.

Lemma run_raise (e : exn) σ : (raise e : M A) σ = Raise e σ.
Proof. done. Qed.
End monad_facts.

Section heap_facts.
Implicit Types (h l : list Image) (σ : State) (r : ref).

Lemma heap_lookup_first h l x : (h ++ x :: l) !! length h = Some x.
Proof. by apply list_lookup_middle. Qed.

Lemma heap_lookup_new h l i : (h ++ l) !! (length h + i)%nat = l !! i.
Proof. rewrite lookup_app_r by lia. f_equal. lia. Qed.

Lemma run_deref σ r im : heap σ !! r = Some im → deref r σ = Ok im σ.
Proof. unfold deref. by intros ->. Qed.

Lemma run_Image_size σ r im :
  heap σ !! r = Some im → Image_size r σ = Ok (size im) σ.
Proof.
  intros H. unfold Image_size. by rewrite run_bind, (run_deref _ _ _ H).
Qed.

Lemma run_Image_convert_RGBA σ r im :
  heap σ !! r = Some im →
  Image_convert_RGBA r σ
  = Ok (length (heap σ)) (set_heap (heap σ ++ [im]) σ).
Proof.
  intros H. unfold Image_convert_RGBA.
  by rewrite run_bind, (run_deref _ _ _ H).
Qed.

Lemma run_Image_new σ sz c :
  Image_new sz c σ
  = Ok (length (heap σ)) (set_heap (heap σ ++ [Raster.new sz c]) σ).
Proof. done. Qed.

Lemma run_Image_crop σ r im box :
  heap σ !! r = Some im →
  Image_crop r box σ
  = Ok (length (heap σ)) (set_heap (heap σ ++ [crop im box]) σ).
Proof.
  intros H. unfold Image_crop. by rewrite run_bind, (run_deref _ _ _ H).
Qed.

Lemma run_Image_paste σ out q dst piece at_ :
  heap σ !! out = Some dst → heap σ !! q = Some piece →
  Image_paste out q at_ σ
  = Ok () (set_heap (<[out := paste dst piece at_]> (heap σ)) σ).
Proof.
  intros Ho Hq. unfold Image_paste.
  rewrite run_bind, (run_deref _ _ _ Ho), run_bind, (run_deref _ _ _ Hq).
  unfold assign. by rewrite Ho.
Qed.

Lemma run_Image_open σ p im :
  files σ !! p = Some im →
  Image_open p σ = Ok (length (heap σ)) (set_heap (heap σ ++ [im]) σ).
Proof. unfold Image_open. by intros ->. Qed.

Lemma run_Image_save σ r p im :
  heap σ !! r = Some im →
  Image_save r p σ = Ok () (set_files (<[p := im]> (files σ)) σ).
Proof.
  intros H. unfold Image_save. by rewrite run_bind, (run_deref _ _ _ H).
Qed.

Lemma run_print σ (ln : line) :
  print ln σ = Ok () (set_stdout (stdout σ ++ [ln]) σ).
Proof. done. Qed.

Lemma run_Path_exists σ p : Path_exists p σ = Ok (path_exists σ p) σ.
Proof. done. Qed.

Lemma run_Path_mkdir σ p :
  Path_mkdir p σ = Ok () (set_dirs (list_to_set (ancestors p) ∪ dirs σ) σ).
Proof. done. Qed.
End heap_facts.

(** One step of a run: the state is kept as [heap σ ++ l] with [l]
    spelled out, so that a fresh reference reads [length (heap σ) + i]. *)
Ltac heap_norm :=
  cbn [heap dirs files stdout set_heap set_dirs set_files set_stdout];
  rewrite <- ?app_assoc, ?length_app, <- ?Nat.add_assoc;
  cbn [app length Nat.add].

Ltac heap_lookup :=
  heap_norm;
  first [ eassumption
        | apply heap_lookup_first
        | rewrite heap_lookup_new; reflexivity
        | apply lookup_app_l_Some; eassumption ].

Ltac run_step :=
  rewrite ?run_bind;
  first [ rewrite run_Image_new
        | rewrite run_print
        | rewrite run_ret
        | erewrite run_Image_size by heap_lookup
        | erewrite run_Image_convert_RGBA by heap_lookup
        | erewrite run_Image_crop by heap_lookup
        | erewrite run_Image_paste by heap_lookup
        | erewrite run_Image_save by heap_lookup ];
  heap_norm; rewrite ?insert_app_r; cbn [insert list_insert].

(** ** The tile repack transform *)

Lemma pad_run σ image im :
  heap σ !! image = Some im → size im = (32, 32) →
  pad_2x2_tile_sheet image σ
  = Ok (length (heap σ) + 1)%nat
       (set_heap (heap σ ++ [im; repacked im; crop im (0, 0, 16, 16);
                             crop im (16, 0, 32, 16); crop im (0, 16, 16, 32);
                             crop im (16, 16, 32, 32)]) σ).
Proof.
  intros Him Hsz. unfold pad_2x2_tile_sheet.
  run_step. rewrite Hsz.
  rewrite bool_decide_eq_false_2 by done.
  rewrite bool_decide_eq_false_2 by (intros ?; done).
  do 10 run_step. reflexivity.
Qed.

Lemma pad_run_padded σ image im :
  heap σ !! image = Some im → size im = (36, 36) →
  pad_2x2_tile_sheet image σ = Ok image σ.
Proof.
  intros Him Hsz. unfold pad_2x2_tile_sheet.
  rewrite run_bind, (run_Image_size _ _ _ Him), Hsz.
  by rewrite bool_decide_eq_true_2.
Qed.

Lemma pad_run_mismatch σ image im :
  heap σ !! image = Some im → size im ≠ (32, 32) → size im ≠ (36, 36) →
  pad_2x2_tile_sheet image σ = Raise (ValueError (size im)) σ.
Proof.
  intros Him H32 H36. unfold pad_2x2_tile_sheet.
  rewrite run_bind, (run_Image_size _ _ _ Him).
  rewrite bool_decide_eq_false_2 by done.
  by rewrite bool_decide_eq_true_2.
Qed.

Ltac bounds_cases :=
  repeat match goal with
    | |- context [in_bounds ?w ?h ?x ?y] =>
        let E := fresh "E" in
        destruct (in_bounds w h x y) eqn:E;
        [apply in_bounds_true in E | apply in_bounds_false in E];
        try lia
    end.

Ltac same_pixel :=
  match goal with
  | H : getpixel ?im (?x, ?y) = Some ?p |- context [getpixel ?im (?a, ?b)] =>
      replace (a, b) with (x, y) by (f_equal; lia); rewrite H
  end.

#[local] Arguments getpixel : simpl never.

Section repacked_facts.
Variable im : Image.

Lemma size_repacked : size (repacked im) = (36, 36).
Proof. unfold repacked. by rewrite !size_paste. Qed.

Lemma wf_repacked : wf_image (repacked im) = true.
Proof. unfold repacked. do 4 apply wf_paste. by apply wf_raster. Qed.

(** Gutters and border: nothing is pasted there. *)
Lemma getpixel_repacked_gutter x y :
  0 ≤ x < 36 → 0 ≤ y < 36 →
  16 ≤ x < 18 ∨ 16 ≤ y < 18 ∨ 34 ≤ x ∨ 34 ≤ y →
  getpixel (repacked im) (x, y) = Some (0, 0, 0, 0).
Proof.
  intros Hx Hy Hg.
  unfold repacked. rewrite !getpixel_paste, getpixel_new, !getpixel_crop.
  bounds_cases. done.
Qed.

Hypothesis Hwf : wf_image im = true.
Hypothesis Hsz : size im = (32, 32).

Lemma getpixel_src x y :
  0 ≤ x < 32 → 0 ≤ y < 32 → is_Some (getpixel im (x, y)).
Proof.
  intros Hx Hy. apply getpixel_is_Some; [done|..];
    unfold width, height; rewrite Hsz; cbn; lia.
Qed.

(** Frames: the pixel of [im] at [(x, y)] lands two columns to the
    right when it is in the right half, two rows down when it is in
    the lower half. *)
Lemma getpixel_repacked_frame x y :
  0 ≤ x < 32 → 0 ≤ y < 32 →
  getpixel (repacked im)
           (x + (if x <? 16 then 0 else 2), y + (if y <? 16 then 0 else 2))
  = getpixel im (x, y).
Proof.
  intros Hx Hy. destruct (getpixel_src x y Hx Hy) as [p Hp]. rewrite Hp.
  unfold repacked. rewrite !getpixel_paste, getpixel_new, !getpixel_crop.
  destruct (Z.ltb_spec x 16), (Z.ltb_spec y 16); bounds_cases; cbn;
    by same_pixel.
Qed.
End repacked_facts.

(** ** Paths and files *)

Section file_facts.
Implicit Types (σ : State) (p q : Path) (a b : string).


Lemma path_exists_file σ p im : files σ !! p = Some im → path_exists σ p = true.
Proof.
  intros H. unfold path_exists. apply orb_true_iff. right.
  by apply bool_decide_eq_true_2.
Qed.





End file_facts.

(** ** The loop of the driver *)

Section sync_mapping_facts.
Variables (sdir idir tdir : Path) (mapping : TextureMapping).
Variables (copied skipped : Z) (σ : State).

Let src_path := joinpath sdir (source_name mapping).

(** A missing source is skipped. *)
Lemma sync_mapping_missing :
  path_exists σ src_path = false →
  sync_mapping sdir idir tdir mapping (copied, skipped) σ
  = Ok (copied, skipped + 1) (set_stdout (stdout σ ++ [SKIP src_path]) σ).
Proof.
  intros Hmiss. unfold sync_mapping. fold src_path.
  rewrite run_bind, run_Path_exists, Hmiss. cbn [negb].
  by run_step.
Qed.

Variable src : Image.
Hypothesis Hsrc : files σ !! src_path = Some src.

(** After [Image.open(src_path).convert("RGBA")]. *)
Let loaded : State := set_heap (heap σ ++ [src; src]) σ.
Let src_image : ref := (length (heap σ) + 1)%nat.

Lemma sync_mapping_load (k : ref → M (Z * Z)) :
  (found ← Path_exists src_path;
   if negb found then print (SKIP src_path);; mret (copied, skipped + 1)
   else opened ← Image_open src_path;
        src_image ← Image_convert_RGBA opened; k src_image) σ
  = k src_image loaded.
Proof.
  rewrite run_bind, run_Path_exists, (path_exists_file _ _ _ Hsrc).
  cbn [negb]. rewrite run_bind, (run_Image_open _ _ _ Hsrc).
  by run_step.
Qed.




End sync_mapping_facts.

Section main_facts.
Variables (args : Args) (σ : State).

Let sdir := source_dir args.
Let idir := joinpath (assets_root args) "items".
Let tdir := joinpath (assets_root args) "tiles".

Lemma for_each_cons {A B} (x : A) xs (body : A → B → M B) acc σ0 :
  for_each (x :: xs) body acc σ0
  = match body x acc σ0 with
    | Ok acc' σ' => for_each xs body acc' σ'
    | Raise e σ' => Raise e σ'
    | Wrong => Wrong
    end.
Proof. done. Qed.

Lemma main_run :
  path_exists σ sdir = true →
  main args σ
  = match for_each MAPPINGS (sync_mapping sdir idir tdir) (0, 0) (prepared args σ)
    with
    | Ok counts σ' =>
        Ok 0 (set_stdout (stdout σ' ++ [DONE (fst counts) (snd counts)]) σ')
    | Raise e σ' => Raise e σ'
    | Wrong => Wrong
    end.
Proof.
  intros Hdir. unfold main. fold sdir idir tdir.
  rewrite run_bind, run_Path_exists, Hdir. cbn [negb].
  rewrite run_bind, run_Path_mkdir. cbn match.
  rewrite run_bind, run_Path_mkdir. cbn match.
  change (set_dirs _ (set_dirs _ σ)) with (prepared args σ).
  rewrite run_bind. by destruct (for_each _ _ _ _).
Qed.

Lemma main_no_source_dir :
  path_exists σ sdir = false → main args σ = Raise (FileNotFoundError sdir) σ.
Proof.
  intros Hdir. unfold main. fold sdir.
  by rewrite run_bind, run_Path_exists, Hdir.
Qed.



End main_facts.



(** ** What a run can report *)

Section inversion.
Context {A B : Type}.

Lemma bind_Ok (m : M A) (k : A → M B) σ b σ' :
  (m ≫= k) σ = Ok b σ' → ∃ a σ1, m σ = Ok a σ1 ∧ k a σ1 = Ok b σ'.
Proof. rewrite run_bind. destruct (m σ); naive_solver. Qed.

Lemma ret_Ok (a b : A) σ σ' : (mret a : M A) σ = Ok b σ' → a = b ∧ σ = σ'.
Proof. rewrite run_ret. naive_solver. Qed.
End inversion.

Ltac invert_run H :=
  repeat match type of H with
         | (_ ≫= _) _ = Ok _ _ =>
             let a := fresh "a" in
             let σ1 := fresh "σ" in
             let Ha := fresh "Ha" in
             apply bind_Ok in H as (a & σ1 & Ha & H)
         end;
  match type of H with
  | mret _ _ = Ok _ _ => apply ret_Ok in H as [<- _]
  | _ => idtac
  end.

(** A record is skipped, or it writes all its outputs. *)
Lemma sync_mapping_counts sdir idir tdir mapping before σ after σ' :
  sync_mapping sdir idir tdir mapping before σ = Ok after σ' →
  after = (before.1, before.2 + 1)
  ∨ after = (before.1 + outputs mapping, before.2).
Proof.
  destruct before as [copied skipped]. unfold sync_mapping, outputs. intros H.
  apply bind_Ok in H as ([] & σ1 & _ & H); cbn [negb] in H.
  - right.
    apply bind_Ok in H as (opened & σ2 & _ & H).
    apply bind_Ok in H as (src_image & σ3 & _ & H).
    apply bind_Ok in H as (c1 & σ4 & H1 & H).
    apply bind_Ok in H as (c2 & σ5 & H2 & H).
    apply ret_Ok in H as [<- _].
    destruct (truthy (item_target_name mapping));
      destruct (truthy (tile_target_name mapping));
      invert_run H1; invert_run H2; cbn; f_equal; lia.
  - left. by invert_run H.
Qed.

Lemma for_each_cons_Ok {X} (x : X) xs (body : X → Z * Z → M (Z * Z))
    acc σ r σ' :
  for_each (x :: xs) body acc σ = Ok r σ' →
  ∃ acc1 σ1, body x acc σ = Ok acc1 σ1 ∧ for_each xs body acc1 σ1 = Ok r σ'.
Proof. apply bind_Ok. Qed.

(** Whatever the folders hold, no run reports 3 outputs and 1 skipped
    source: skipping one record of the table leaves 5 or 6 outputs. *)
Proposition main_never_reports_3_1 args σ :
  report (main args σ) ≠ Some (DONE 3 1).
Proof.
  destruct (path_exists σ (source_dir args)) eqn:Hdir;
    [|by rewrite main_no_source_dir].
  rewrite main_run by done.
  destruct (for_each _ _ _ _) as [[copied skipped] σ'| |] eqn:Hloop; [|done..].
  cbn. rewrite last_snoc. intros [= -> ->].
  unfold MAPPINGS in Hloop.
  repeat match type of Hloop with
         | for_each (_ :: _) _ ?acc _ = _ =>
             let H := fresh "Hrec" in
             apply for_each_cons_Ok in Hloop as (? & ? & H & Hloop);
             apply sync_mapping_counts in H; unfold outputs in H; cbn in H
         end.
  apply ret_Ok in Hloop as [Hloop _].
  repeat match goal with
         | H : _ ∨ _ |- _ => destruct H
         end; simplify_eq; lia.
Qed.

(** ** The samples, run *)

Example sheet_repacked :
  let out := repacked Samples.sheet in
  size out = (36, 36)
  ∧ getpixel out (15, 15) = Some (120, 120, 30, 255)
  ∧ getpixel out (18, 0) = getpixel Samples.sheet (16, 0)
  ∧ getpixel out (0, 18) = getpixel Samples.sheet (0, 16)
  ∧ getpixel out (33, 33) = getpixel Samples.sheet (31, 31)
  ∧ getpixel out (16, 5) = Some (0, 0, 0, 0)
  ∧ getpixel out (35, 35) = Some (0, 0, 0, 0)
  ∧ getpixel out (36, 0) = None.
Proof. vm_compute. by repeat split. Qed.

Example scenario_run :
  match main Samples.args Samples.scenario with
  | Ok code σ => Some (code, stdout σ)
  | _ => None
  end
  = Some (0, [ITEM "storage-core.png"
                   ["src"; "StorageHub"; "assets"; "items"; "storage-heart.png"];
              TILE "storage-core.png"
                   ["src"; "StorageHub"; "assets"; "tiles"; "storage-heart.png"]
                   (36, 36);
              SKIP ["Storage"; "storage-drive.png"];
              ITEM "storage-disk-tier-1.png"
                   ["src"; "StorageHub"; "assets"; "items"; "storage-disk.png"];
              SKIP ["Storage"; "disk-upgrader.png"];
              DONE 3 2]%string).
Proof. vm_compute. reflexivity. Qed.

Example bad_core_run :
  match main Samples.args Samples.bad_core with
  | Raise e σ => Some (e, stdout σ)
  | _ => None
  end
  = Some (ValueError (64, 64),
          [ITEM "storage-core.png"
                ["src"; "StorageHub"; "assets"; "items"; "storage-heart.png"]
          ]%string).
Proof. vm_compute. reflexivity. Qed.

Example no_source_dir_run :
  main Samples.args (mkState [] ∅ ∅ [])
  = Raise (FileNotFoundError ["Storage"%string]) (mkState [] ∅ ∅ []).
Proof. reflexivity. Qed.

(** ** The results *)

(** What a call of the transform returns, by the size of its input. *)
Lemma returned_pad σ image src :
  heap σ !! image = Some src →
  returned (pad_2x2_tile_sheet image σ)
  = Some (if bool_decide (size src = (36, 36)) then inr src
          else if bool_decide (size src = (32, 32)) then inr (repacked src)
          else inl (ValueError (size src))).
Proof.
  intros Him. repeat case_bool_decide.
  - rewrite (pad_run_padded _ _ _ Him) by done. cbn. by rewrite Him.
  - rewrite (pad_run _ _ _ Him) by done. cbn. by rewrite heap_lookup_new.
  - by rewrite (pad_run_mismatch _ _ _ Him).
Qed.

(** C1. For every 32x32 RGBA image [src] the transform returns an
    image [o] that holds the four 16x16 quadrants of [src] unchanged:
    the top-left one in place, the top-right one two columns to the
    right, the bottom-left one two rows down and the bottom-right one
    two columns to the right and two rows down, that is at (0,0),
    (18,0), (0,18) and (18,18). *)
Theorem pad_places_quadrants σ image src :
  heap σ !! image = Some src → wf_image src = true → size src = (32, 32) →
  ∃ out σ' o,
    pad_2x2_tile_sheet image σ = Ok out σ' ∧ heap σ' !! out = Some o ∧
    ∀ x y,
      (0 ≤ x < 16 → 0 ≤ y < 16 →
       ∃ p, getpixel src (x, y) = Some p ∧ getpixel o (x, y) = Some p) ∧
      (0 ≤ x < 16 → 16 ≤ y < 32 →
       ∃ p, getpixel src (x, y) = Some p ∧ getpixel o (x, y + 2) = Some p) ∧
      (16 ≤ x < 32 → 0 ≤ y < 16 →
       ∃ p, getpixel src (x, y) = Some p ∧ getpixel o (x + 2, y) = Some p) ∧
      (16 ≤ x < 32 → 16 ≤ y < 32 →
       ∃ p, getpixel src (x, y) = Some p
            ∧ getpixel o (x + 2, y + 2) = Some p).
Proof.
  intros Him Hwf Hsz. eexists _, _, (repacked src).
  split; [by apply pad_run|]. split; [cbn; by rewrite heap_lookup_new|].
  intros x y. split_and!; intros Hx Hy;
    (destruct (getpixel_src src Hwf Hsz x y) as [p Hp]; [lia..|]);
    exists p; (split; [done|]); rewrite <- Hp;
    rewrite <- (getpixel_repacked_frame src Hwf Hsz x y) by lia;
    destruct (Z.ltb_spec x 16), (Z.ltb_spec y 16); try lia;
    do 2 f_equal; lia.
Qed.

Lemma pad_places_quadrants_witness :
  ∃ out σ' o,
    pad_2x2_tile_sheet 0%nat (Samples.one_object Samples.sheet) = Ok out σ'
    ∧ heap σ' !! out = Some o ∧
    ∀ x y,
      (0 ≤ x < 16 → 0 ≤ y < 16 →
       ∃ p, getpixel Samples.sheet (x, y) = Some p
            ∧ getpixel o (x, y) = Some p) ∧
      (0 ≤ x < 16 → 16 ≤ y < 32 →
       ∃ p, getpixel Samples.sheet (x, y) = Some p
            ∧ getpixel o (x, y + 2) = Some p) ∧
      (16 ≤ x < 32 → 0 ≤ y < 16 →
       ∃ p, getpixel Samples.sheet (x, y) = Some p
            ∧ getpixel o (x + 2, y) = Some p) ∧
      (16 ≤ x < 32 → 16 ≤ y < 32 →
       ∃ p, getpixel Samples.sheet (x, y) = Some p
            ∧ getpixel o (x + 2, y + 2) = Some p).
Proof.
  apply (pad_places_quadrants (Samples.one_object Samples.sheet) 0%nat
                              Samples.sheet); reflexivity.
Defined.

(** C2. For every 32x32 image the transform succeeds and returns an
    image of size exactly 36x36. *)
Theorem pad_returns_36x36 σ image src :
  heap σ !! image = Some src → size src = (32, 32) →
  ∃ out σ' o,
    pad_2x2_tile_sheet image σ = Ok out σ' ∧ heap σ' !! out = Some o
    ∧ size o = (36, 36) ∧ wf_image o = true.
Proof.
  intros Him Hsz. eexists _, _, (repacked src).
  split; [by apply pad_run|]. split; [cbn; by rewrite heap_lookup_new|].
  split; [apply size_repacked | apply wf_repacked].
Qed.

Lemma pad_returns_36x36_witness :
  ∃ out σ' o,
    pad_2x2_tile_sheet 0%nat (Samples.one_object Samples.sheet) = Ok out σ'
    ∧ heap σ' !! out = Some o ∧ size o = (36, 36) ∧ wf_image o = true.
Proof.
  apply (pad_returns_36x36 (Samples.one_object Samples.sheet) 0%nat
                           Samples.sheet); reflexivity.
Defined.

(** C3. For every 36x36 image the transform returns its argument, the
    same object, and changes nothing: the image it returns is [src],
    pixel for pixel. *)
Theorem pad_passes_36x36_through σ image src :
  heap σ !! image = Some src → size src = (36, 36) →
  pad_2x2_tile_sheet image σ = Ok image σ
  ∧ returned (pad_2x2_tile_sheet image σ) = Some (inr src).
Proof.
  intros Him Hsz. rewrite (pad_run_padded _ _ _ Him Hsz).
  split; [done|]. cbn. by rewrite Him.
Qed.

Lemma pad_passes_36x36_through_witness :
  pad_2x2_tile_sheet 0%nat (Samples.one_object Samples.padded)
  = Ok 0%nat (Samples.one_object Samples.padded)
  ∧ returned (pad_2x2_tile_sheet 0%nat (Samples.one_object Samples.padded))
    = Some (inr Samples.padded).
Proof.
  apply (pad_passes_36x36_through (Samples.one_object Samples.padded) 0%nat
                                  Samples.padded); reflexivity.
Defined.

(** C4. For every 32x32 image, every pixel of the output in column 16
    or 17, in row 16 or 17, in a column from 34 on or in a row from 34
    on is transparent black (0,0,0,0). *)
Theorem pad_gutters_transparent σ image src :
  heap σ !! image = Some src → size src = (32, 32) →
  ∃ out σ' o,
    pad_2x2_tile_sheet image σ = Ok out σ' ∧ heap σ' !! out = Some o ∧
    ∀ x y,
      0 ≤ x < 36 → 0 ≤ y < 36 →
      x = 16 ∨ x = 17 ∨ y = 16 ∨ y = 17 ∨ 34 ≤ x ∨ 34 ≤ y →
      getpixel o (x, y) = Some (0, 0, 0, 0).
Proof.
  intros Him Hsz. eexists _, _, (repacked src).
  split; [by apply pad_run|]. split; [cbn; by rewrite heap_lookup_new|].
  intros x y Hx Hy Hg. apply getpixel_repacked_gutter; lia.
Qed.

Lemma pad_gutters_transparent_witness :
  ∃ out σ' o,
    pad_2x2_tile_sheet 0%nat (Samples.one_object Samples.sheet) = Ok out σ'
    ∧ heap σ' !! out = Some o ∧
    ∀ x y,
      0 ≤ x < 36 → 0 ≤ y < 36 →
      x = 16 ∨ x = 17 ∨ y = 16 ∨ y = 17 ∨ 34 ≤ x ∨ 34 ≤ y →
      getpixel o (x, y) = Some (0, 0, 0, 0).
Proof.
  apply (pad_gutters_transparent (Samples.one_object Samples.sheet) 0%nat
                                 Samples.sheet); reflexivity.
Defined.

(** C7. The transform has no effect on what is there: when it returns,
    every image object of the state before the call, [src] among them,
    is what it was, and the files and the output are untouched; when it
    raises, the whole state is. What it returns depends on the raster
    of its argument alone: two calls on equal images return the same. *)
Theorem pad_leaves_input_alone σ image src :
  heap σ !! image = Some src →
  ((∃ out σ',
      pad_2x2_tile_sheet image σ = Ok out σ'
      ∧ (∀ r im, heap σ !! r = Some im → heap σ' !! r = Some im)
      ∧ dirs σ' = dirs σ ∧ files σ' = files σ ∧ stdout σ' = stdout σ)
   ∨ (∃ e, pad_2x2_tile_sheet image σ = Raise e σ))
  ∧ is_Some (returned (pad_2x2_tile_sheet image σ))
  ∧ ∀ σ2 image2,
      heap σ2 !! image2 = Some src →
      returned (pad_2x2_tile_sheet image2 σ2)
      = returned (pad_2x2_tile_sheet image σ).
Proof.
  intros Him. split_and!.
  - destruct (decide (size src = (36, 36))) as [H36|H36];
      [|destruct (decide (size src = (32, 32))) as [H32|H32]].
    + left. exists image, σ. by rewrite (pad_run_padded _ _ _ Him H36).
    + left. rewrite (pad_run _ _ _ Him H32). do 2 eexists.
      split; [done|]. split_and!; [|done..].
      intros r im Hr. cbn. by apply lookup_app_l_Some.
    + right. rewrite (pad_run_mismatch _ _ _ Him H32 H36). by eexists.
  - rewrite (returned_pad _ _ _ Him). by eexists.
  - intros σ2 image2 Him2.
    by rewrite (returned_pad _ _ _ Him), (returned_pad _ _ _ Him2).
Qed.

Lemma pad_leaves_input_alone_witness :
  let σ := Samples.one_object Samples.sheet in
  ((∃ out σ',
      pad_2x2_tile_sheet 0%nat σ = Ok out σ'
      ∧ (∀ r im, heap σ !! r = Some im → heap σ' !! r = Some im)
      ∧ dirs σ' = dirs σ ∧ files σ' = files σ ∧ stdout σ' = stdout σ)
   ∨ (∃ e, pad_2x2_tile_sheet 0%nat σ = Raise e σ))
  ∧ is_Some (returned (pad_2x2_tile_sheet 0%nat σ))
  ∧ ∀ σ2 image2,
      heap σ2 !! image2 = Some Samples.sheet →
      returned (pad_2x2_tile_sheet image2 σ2)
      = returned (pad_2x2_tile_sheet 0%nat σ).
Proof.
  apply (pad_leaves_input_alone (Samples.one_object Samples.sheet) 0%nat
                                Samples.sheet); reflexivity.
Defined.

(** C8. Every record of the mapping table names an item target or a
    tile target. *)
Theorem mappings_name_a_target :
  Forall (λ mapping,
            is_Some (truthy (item_target_name mapping))
            ∨ is_Some (truthy (tile_target_name mapping)))
         MAPPINGS.
Proof.
  unfold MAPPINGS. repeat (apply List.Forall_cons; [left; by eexists|]).
  apply List.Forall_nil.
Qed.











(** ** Beyond the claims *)

(** Two well-formed images of one size with the same pixels are the
    same image. *)
Lemma image_ext a b :
  wf_image a = true → wf_image b = true → size a = size b →
  (∀ x y, 0 ≤ x < width a → 0 ≤ y < height a →
          getpixel a (x, y) = getpixel b (x, y)) →
  a = b.
Proof.
  intros (Hwa & Hha & Hla)%wf_image_spec (Hwb & Hhb & Hlb)%wf_image_spec.
  destruct a as [[w h] pa], b as [[w' h'] pb]. unfold width, height in *.
  cbn in *. intros [= <- <-] Hpix. f_equal.
  apply list_eq. intros i.
  destruct (decide (Z.of_nat i < w * h)) as [Hi|Hi].
  - assert (0 < w) by nia.
    specialize (Hpix (Z.of_nat i `mod` w) (Z.of_nat i `div` w)).
    unfold getpixel, width, height in Hpix. cbn in Hpix.
    assert (0 ≤ Z.of_nat i `mod` w < w) as Hx by (apply Z.mod_pos_bound; lia).
    assert (0 ≤ Z.of_nat i `div` w < h) as Hy.
    { split; [apply Z.div_pos; lia|]. apply Z.div_lt_upper_bound; lia. }
    rewrite (proj2 (in_bounds_true w h _ _)) in Hpix by done.
    replace (Z.of_nat i `div` w * w + Z.of_nat i `mod` w) with (Z.of_nat i)
      in Hpix by (rewrite (Z.div_mod (Z.of_nat i) w) at 1; lia).
    rewrite Nat2Z.id in Hpix. by apply Hpix.
  - rewrite !lookup_ge_None_2 by lia. done.
Qed.

(** X1. Without the source folder [main] raises [FileNotFoundError]
    at once: no folder is created, nothing is written or printed. *)
Theorem main_without_source_dir args σ :
  path_exists σ (source_dir args) = false →
  main args σ = Raise (FileNotFoundError (source_dir args)) σ.
Proof. apply main_no_source_dir. Qed.

Lemma main_without_source_dir_witness :
  main Samples.args (mkState [] ∅ ∅ [])
  = Raise (FileNotFoundError (source_dir Samples.args)) (mkState [] ∅ ∅ []).
Proof.
  apply (main_without_source_dir Samples.args (mkState [] ∅ ∅ [])).
  reflexivity.
Defined.

(** X2. Padding twice is padding once: the transform applied to what
    it returned returns the same object and leaves the state as the
    first call left it; where the first call raises, so does the
    pair. *)
Theorem pad_twice image σ :
  (out ← pad_2x2_tile_sheet image; pad_2x2_tile_sheet out) σ
  = pad_2x2_tile_sheet image σ.
Proof.
  rewrite run_bind.
  destruct (heap σ !! image) as [src|] eqn:Him.
  - destruct (decide (size src = (36, 36))) as [H36|H36];
      [|destruct (decide (size src = (32, 32))) as [H32|H32]].
    + rewrite (pad_run_padded _ _ _ Him H36).
      by rewrite (pad_run_padded _ _ _ Him H36).
    + rewrite (pad_run _ _ _ Him H32).
      erewrite pad_run_padded; [done|heap_lookup|apply size_repacked].
    + by rewrite (pad_run_mismatch _ _ _ Him H32 H36).
  - unfold pad_2x2_tile_sheet, Image_size, deref.
    rewrite !run_bind. by rewrite Him.
Qed.

(** X3. The transform loses nothing: two 32x32 images with the same
    padded sheet are the same image. *)
Theorem pad_injective σ1 image1 src1 σ2 image2 src2 :
  heap σ1 !! image1 = Some src1 → heap σ2 !! image2 = Some src2 →
  wf_image src1 = true → wf_image src2 = true →
  size src1 = (32, 32) → size src2 = (32, 32) →
  returned (pad_2x2_tile_sheet image1 σ1)
  = returned (pad_2x2_tile_sheet image2 σ2) →
  src1 = src2.
Proof.
  intros H1 H2 Hwf1 Hwf2 Hsz1 Hsz2.
  rewrite (pad_run _ _ _ H1 Hsz1), (pad_run _ _ _ H2 Hsz2).
  unfold returned. heap_norm. rewrite !heap_lookup_new.
  cbn [lookup list_lookup fmap option_fmap option_map].
  intros Heq%(inj Some)%(inj inr).
  apply image_ext; [done..|congruence|].
  unfold width, height. rewrite Hsz1. cbn. intros x y Hx Hy.
  rewrite <- (getpixel_repacked_frame src1 Hwf1 Hsz1 x y Hx Hy).
  rewrite <- (getpixel_repacked_frame src2 Hwf2 Hsz2 x y Hx Hy).
  by rewrite Heq.
Qed.

Lemma pad_injective_witness : Samples.sheet = Samples.sheet.
Proof.
  apply (pad_injective (Samples.one_object Samples.sheet) 0%nat Samples.sheet
           (mkState [Samples.icon; Samples.sheet] ∅ ∅ []) 1%nat Samples.sheet);
    vm_compute; reflexivity.
Defined.

(** ** What one record does, in every case *)

Ltac run_pad :=
  rewrite ?run_bind;
  first [ erewrite pad_run_padded by (heap_lookup || done)
        | erewrite pad_run by (heap_lookup || done)
        | erewrite pad_run_mismatch by (heap_lookup || done) ];
  heap_norm.

Lemma files_kept (f : gmap Path Image) p q im :
  is_Some (f !! p) → is_Some (<[q := im]> f !! p).
Proof.
  intros ?. destruct (decide (q = p)) as [->|].
  - rewrite lookup_insert_eq. by eexists.
  - by rewrite lookup_insert_ne.
Qed.

Lemma Ok_value {A} (a b : A) σ σ' : Ok a σ = Ok b σ' → a = b.
Proof. by intros [= ->]. Qed.

Ltac effect_goal :=
  cbn [final];
  eexists _, _; split; [reflexivity|];
  cbn [heap dirs files stdout set_heap set_dirs set_files set_stdout];
  split_and!;
  [ first [ reflexivity | by apply prefix_app_r ]
  | reflexivity
  | first [ reflexivity | by rewrite app_nil_r ]
  | reflexivity
  | intros p Hp; by repeat apply files_kept
  | intros p Hp; cbn in Hp;
    rewrite ?lookup_insert_ne
      by (let Heq := fresh in intros Heq; apply Hp; rewrite <- Heq; set_solver);
    reflexivity
  | intros after σ'' Hrun;
    first [ discriminate Hrun
          | apply Ok_value in Hrun as <-; unfold count; cbn; lia ] ].

Lemma sync_mapping_effect sdir idir tdir mapping before σ :
  ∃ σ' ls,
    final (sync_mapping sdir idir tdir mapping before σ) = Some σ'
    ∧ heap σ `prefix_of` heap σ'
    ∧ dirs σ' = dirs σ
    ∧ stdout σ' = stdout σ ++ ls
    ∧ count is_done ls = 0
    ∧ (∀ p, is_Some (files σ !! p) → is_Some (files σ' !! p))
    ∧ (∀ p, p ∉ targets idir tdir mapping → files σ' !! p = files σ !! p)
    ∧ (∀ after σ'',
         sync_mapping sdir idir tdir mapping before σ = Ok after σ'' →
         count is_output ls = after.1 - before.1
         ∧ count is_skip ls = after.2 - before.2).
Proof.
  destruct before as [copied skipped].
  destruct (path_exists σ (joinpath sdir (source_name mapping))) eqn:Hfound.
  2: { rewrite sync_mapping_missing by done. effect_goal. }
  destruct (files σ !! joinpath sdir (source_name mapping)) as [src|] eqn:Hsrc.
  2: { unfold sync_mapping.
       rewrite run_bind, run_Path_exists, Hfound. cbn [negb].
       rewrite run_bind. unfold Image_open. rewrite Hsrc.
       destruct (bool_decide _); effect_goal. }
  unfold sync_mapping, targets.
  rewrite (sync_mapping_load sdir mapping copied skipped σ src Hsrc).
  destruct (truthy (item_target_name mapping)) as [item|];
    destruct (truthy (tile_target_name mapping)) as [tile|];
    destruct (pad_tile_2x2 mapping);
    try (destruct (decide (size src = (36, 36))) as [H36|H36];
         [|destruct (decide (size src = (32, 32))) as [H32|H32]]);
    repeat first [run_step | run_pad];
    rewrite ?size_repacked, ?run_ret;
    effect_goal.
Qed.

Lemma count_app f ls1 ls2 : count f (ls1 ++ ls2) = count f ls1 + count f ls2.
Proof. unfold count. rewrite List.filter_app, length_app. lia. Qed.

(** ** What the loop does, for any table *)

Lemma for_each_effect sdir idir tdir ms before σ :
  ∃ σ' ls,
    final (for_each ms (sync_mapping sdir idir tdir) before σ) = Some σ'
    ∧ heap σ `prefix_of` heap σ'
    ∧ dirs σ' = dirs σ
    ∧ stdout σ' = stdout σ ++ ls
    ∧ count is_done ls = 0
    ∧ (∀ p, is_Some (files σ !! p) → is_Some (files σ' !! p))
    ∧ (∀ p, p ∉ concat (targets idir tdir <$> ms) →
            files σ' !! p = files σ !! p)
    ∧ (∀ after σ'',
         for_each ms (sync_mapping sdir idir tdir) before σ = Ok after σ'' →
         count is_output ls = after.1 - before.1
         ∧ count is_skip ls = after.2 - before.2).
Proof.
  revert before σ. induction ms as [|mapping ms IH]; intros before σ.
  - exists σ, []. cbn. rewrite app_nil_r. split_and!; try done.
    intros after σ'' Hrun%Ok_value. subst. unfold count. cbn. lia.
  - rewrite for_each_cons.
    destruct (sync_mapping_effect sdir idir tdir mapping before σ)
      as (σ1 & ls1 & Hfin & Hheap & Hdirs & Hout & Hdone & Hkept & Hframe
          & Hcount).
    destruct (sync_mapping sdir idir tdir mapping before σ)
      as [mid σ1'|e σ1'|] eqn:Hbody; cbn [final] in Hfin; [| |done].
    + apply (inj Some) in Hfin as ->.
      destruct (IH mid σ1)
        as (σ2 & ls2 & Hfin2 & Hheap2 & Hdirs2 & Hout2 & Hdone2 & Hkept2
            & Hframe2 & Hcount2).
      exists σ2, (ls1 ++ ls2). split_and!.
      * done.
      * by etrans.
      * congruence.
      * by rewrite Hout2, Hout, app_assoc.
      * rewrite count_app. lia.
      * auto.
      * intros p Hp. cbn in Hp. rewrite elem_of_app in Hp.
        rewrite Hframe2, Hframe by tauto. done.
      * intros after σ'' Hrun. rewrite !count_app.
        destruct (Hcount mid σ1 eq_refl), (Hcount2 after σ'' Hrun). lia.
    + apply (inj Some) in Hfin as ->.
      exists σ1, ls1. split_and!; try done.
      intros p Hp. apply Hframe. cbn in Hp. rewrite elem_of_app in Hp. tauto.
Qed.

(** X4. Whatever happens, a run of [main] only adds: image objects,
    folders and printed lines stay and more may follow, no file is
    removed, and a file that is not a target of the table under
    [items/] or [tiles/] is what it was. This holds when the run
    returns and when it raises. *)
Theorem main_only_writes_targets args σ :
  ∃ σ', final (main args σ) = Some σ' ∧ extends (output_paths args) σ σ'.
Proof.
  destruct (path_exists σ (source_dir args)) eqn:Hdir.
  - rewrite main_run by done.
    destruct (for_each_effect (source_dir args)
                (joinpath (assets_root args) "items")
                (joinpath (assets_root args) "tiles") MAPPINGS (0, 0)
                (prepared args σ))
      as (σ1 & ls & Hfin & Hheap & Hdirs & Hout & _ & Hkept & Hframe & _).
    destruct (for_each _ _ _ _) as [counts σ1'|e σ1'|]; cbn [final] in Hfin;
      [| |done]; apply (inj Some) in Hfin as ->.
    + eexists. split; [reflexivity|]. unfold extends. cbn.
      split_and!; [done| |rewrite Hout, <- app_assoc; by apply prefix_app_r
                  |done|done].
      rewrite Hdirs. cbn. intros p Hp. rewrite !elem_of_union. auto.
    + exists σ1. split; [reflexivity|]. unfold extends.
      split_and!; [done| |rewrite Hout; by apply prefix_app_r|done|done].
      rewrite Hdirs. cbn. intros p Hp. rewrite !elem_of_union. auto.
  - rewrite main_no_source_dir by done. exists σ. split; [done|].
    unfold extends. by split_and!.
Qed.

(** X5. The summary of a completed run counts what was printed: its
    last line [DONE copied skipped] follows one [ITEM] or [TILE] line
    per output copied and one [SKIP] line per source skipped, and
    nothing else. *)
Theorem main_log_accounts args σ out :
  printed (main args σ) = Some out →
  ∃ ls copied skipped,
    out = stdout σ ++ ls ++ [DONE copied skipped]
    ∧ copied = count is_output ls
    ∧ skipped = count is_skip ls
    ∧ count is_output ls + count is_skip ls = Z.of_nat (length ls).
Proof.
  destruct (path_exists σ (source_dir args)) eqn:Hdir;
    [|by rewrite main_no_source_dir].
  rewrite main_run by done.
  destruct (for_each_effect (source_dir args)
              (joinpath (assets_root args) "items")
              (joinpath (assets_root args) "tiles") MAPPINGS (0, 0)
              (prepared args σ))
    as (σ1 & ls & Hfin & _ & _ & Hout & Hdone & _ & _ & Hcount).
  destruct (for_each _ _ _ _) as [[copied skipped] σ1'|e σ1'|]; [|done..].
  cbn [final] in Hfin. apply (inj Some) in Hfin as ->.
  destruct (Hcount _ _ eq_refl) as [Hc Hs]. cbn in Hc, Hs.
  cbn. intros [= <-]. exists ls, copied, skipped.
  split_and!; [by rewrite Hout, <- app_assoc|lia|lia|].
  clear -Hdone. unfold count in *.
  induction ls as [|[] ls IH]; cbn in *; lia.
Qed.

Lemma main_log_accounts_witness :
  ∃ ls copied skipped,
    [ITEM "storage-core.png"
          ["src"; "StorageHub"; "assets"; "items"; "storage-heart.png"];
     TILE "storage-core.png"
          ["src"; "StorageHub"; "assets"; "tiles"; "storage-heart.png"]
          (36, 36);
     SKIP ["Storage"; "storage-drive.png"];
     ITEM "storage-disk-tier-1.png"
          ["src"; "StorageHub"; "assets"; "items"; "storage-disk.png"];
     SKIP ["Storage"; "disk-upgrader.png"];
     DONE 3 2]%string
    = stdout Samples.scenario ++ ls ++ [DONE copied skipped]
    ∧ copied = count is_output ls
    ∧ skipped = count is_skip ls
    ∧ count is_output ls + count is_skip ls = Z.of_nat (length ls).
Proof.
  apply (main_log_accounts Samples.args Samples.scenario).
  vm_compute. reflexivity.
Defined.





(** X8. A record that names no target, its targets [None] or empty,
    with its source there: the image is loaded and that is all. No file
    is written, no line is printed, and the record is counted neither
    as copied nor as skipped. *)
Theorem sync_mapping_without_target sdir idir tdir mapping counts σ src :
  files σ !! joinpath sdir (source_name mapping) = Some src →
  truthy (item_target_name mapping) = None →
  truthy (tile_target_name mapping) = None →
  sync_mapping sdir idir tdir mapping counts σ
  = Ok counts (set_heap (heap σ ++ [src; src]) σ).
Proof.
  intros Hsrc Hitem Htile. destruct counts as [copied skipped].
  unfold sync_mapping.
  rewrite (sync_mapping_load sdir mapping copied skipped σ src Hsrc).
  rewrite Hitem, Htile. by do 2 run_step.
Qed.

Lemma sync_mapping_without_target_witness :
  sync_mapping ["Storage"%string] ["items"%string] ["tiles"%string]
               MoreSamples.no_target (5, 1) MoreSamples.padded_core
  = Ok (5, 1)
       (set_heap (heap MoreSamples.padded_core
                  ++ [Samples.padded; Samples.padded])
                 MoreSamples.padded_core).
Proof.
  apply (sync_mapping_without_target
           ["Storage"%string] ["items"%string] ["tiles"%string]
           MoreSamples.no_target (5, 1) MoreSamples.padded_core
           Samples.padded); reflexivity.
Defined.





Lemma getpixel_elem_of im x y p : getpixel im (x, y) = Some p → p ∈ pixels im.
Proof.
  unfold getpixel. destruct (in_bounds _ _ _ _); [|done].
  intros ?. by eapply list_elem_of_lookup_2.
Qed.

Lemma elem_of_pixels im p :
  wf_image im = true → p ∈ pixels im →
  ∃ x y, 0 ≤ x < width im ∧ 0 ≤ y < height im ∧ getpixel im (x, y) = Some p.
Proof.
  intros (Hw & Hh & Hlen)%wf_image_spec [i Hi]%list_elem_of_lookup_1.
  pose proof (lookup_lt_Some _ _ _ Hi) as Hlt.
  assert (0 < width im) by nia.
  exists (Z.of_nat i `mod` width im), (Z.of_nat i `div` width im).
  assert (0 ≤ Z.of_nat i `mod` width im < width im)
    by (apply Z.mod_pos_bound; lia).
  assert (0 ≤ Z.of_nat i `div` width im < height im).
  { split; [apply Z.div_pos; lia|]. apply Z.div_lt_upper_bound; lia. }
  split_and!; [lia..|].
  unfold getpixel. rewrite (proj2 (in_bounds_true _ _ _ _)) by done.
  replace (Z.of_nat i `div` width im * width im + Z.of_nat i `mod` width im)
    with (Z.of_nat i)
    by (rewrite (Z.div_mod (Z.of_nat i) (width im)) at 1; lia).
  by rewrite Nat2Z.id.
Qed.

(** X11. The transform invents no colour: every pixel of the sheet it
    returns for a 32x32 image is transparent black or a pixel of that
    image, channel for channel. *)
Theorem pad_invents_no_pixel σ image src :
  heap σ !! image = Some src → wf_image src = true → size src = (32, 32) →
  ∃ out σ' o,
    pad_2x2_tile_sheet image σ = Ok out σ' ∧ heap σ' !! out = Some o
    ∧ ∀ p, p ∈ pixels o → p = (0, 0, 0, 0) ∨ p ∈ pixels src.
Proof.
  intros Him Hwf Hsz. eexists _, _, (repacked src).
  split; [by apply pad_run|]. split; [cbn; by rewrite heap_lookup_new|].
  intros p (x & y & Hx & Hy & Hp)%elem_of_pixels; [|apply wf_repacked].
  unfold width, height in Hx, Hy. rewrite size_repacked in Hx, Hy.
  cbn in Hx, Hy.
  destruct (decide (16 ≤ x < 18 ∨ 16 ≤ y < 18 ∨ 34 ≤ x ∨ 34 ≤ y)) as [Hg|Hg].
  - left. rewrite getpixel_repacked_gutter in Hp by done. by injection Hp.
  - right.
    set (sx := if x <? 16 then x else x - 2).
    set (sy := if y <? 16 then y else y - 2).
    assert (0 ≤ sx < 32 ∧ 0 ≤ sy < 32
            ∧ x = sx + (if sx <? 16 then 0 else 2)
            ∧ y = sy + (if sy <? 16 then 0 else 2)) as (Hsx & Hsy & Ex & Ey).
    { subst sx sy.
      repeat match goal with
             | |- context [?a <? ?b] => destruct (Z.ltb_spec a b)
             end; lia. }
    pose proof (getpixel_repacked_frame src Hwf Hsz sx sy Hsx Hsy) as Hframe.
    rewrite <- Ex, <- Ey, Hp in Hframe.
    eapply getpixel_elem_of. by symmetry.
Qed.

Lemma pad_invents_no_pixel_witness :
  ∃ out σ' o,
    pad_2x2_tile_sheet 0%nat (Samples.one_object Samples.sheet) = Ok out σ'
    ∧ heap σ' !! out = Some o
    ∧ ∀ p, p ∈ pixels o → p = (0, 0, 0, 0) ∨ p ∈ pixels Samples.sheet.
Proof.
  apply (pad_invents_no_pixel (Samples.one_object Samples.sheet) 0%nat
                              Samples.sheet); reflexivity.
Defined.
